(** * Shared-ring stubs ([lib/ring_stubs.c]): a shallow embedding

    The C file is glue between OCaml and one Xen shared ring: a
    [struct sring] holding four ring indices, four getters, two "push"
    operations and two "set event" operations, with memory barriers at
    fixed places.  The embedding keeps three things the C code has:

    - the control block as a record of four 32-bit indices and the pad;
    - the order in which each stub touches shared memory and issues
      barriers, recorded as a trace in program order;
    - the one failing path, the [assert] of [caml_sring_push_requests].

    Integers are [Z] with the wrap-around of each C conversion written
    out.  The target is LP64 (x86_64): [unsigned long] and OCaml's
    [intnat] have 64 bits, [int] has 32. *)

From Stdlib Require Import ZArith List Bool Lia.
Import ListNotations.
Local Open Scope Z_scope.

(** ** C integer conversions *)

(** Conversion to an unsigned type of [bits] bits. *)
Definition wrap (bits x : Z) : Z := x mod 2 ^ bits.

(** Conversion to a signed type of [bits] bits (two's complement). *)
Definition swrap (bits x : Z) : Z :=
  (x + 2 ^ (bits - 1)) mod 2 ^ bits - 2 ^ (bits - 1).

(** Modelled from the spec: [RING_IDX] is declared in [xen/io/ring.h],
    which the stub file includes but which is not part of it; the data
    model calls a ring index "an unsigned 32-bit counter ... wrapping
    modulo 2^32". *)
Definition RING_IDX_bits : Z := 32.
Definition RING_IDX (x : Z) : Z := wrap RING_IDX_bits x.
Definition sizeof_RING_IDX : Z := RING_IDX_bits / 8.

(** [#define PAGE_SIZE 4096] *)
Definition PAGE_SIZE : Z := 4096.

(** ** OCaml values ([caml/mlvalues.h])

    A [value] is an [intnat]; an OCaml integer [n] is the word [2n+1]. *)
Definition value := Z.

(** [#define Val_long(x) ((intnat) (((uintnat)(x) << 1)) + 1)] *)
Definition Val_long (x : Z) : value := swrap 64 (wrap 64 (Z.shiftl (wrap 64 x) 1)) + 1.
(** [#define Long_val(x) ((x) >> 1)] *)
Definition Long_val (v : value) : Z := Z.shiftr v 1.
(** [#define Val_int(x) Val_long(x)] *)
Definition Val_int (x : Z) : value := Val_long x.
(** [#define Int_val(x) ((int) Long_val(x))] *)
Definition Int_val (v : value) : Z := swrap 32 (Long_val v).
(** [#define Val_unit Val_int(0)] *)
Definition Val_unit : value := Val_int 0.

(** ** The control block *)

(** [struct sring { RING_IDX req_prod, req_event; RING_IDX rsp_prod,
    rsp_event; uint8_t pad[64]; }] *)
Record sring : Type := mk_sring {
  req_prod : Z;
  req_event : Z;
  rsp_prod : Z;
  rsp_event : Z;
  pad : list Z
}.

(** The four index members, as names. *)
Inductive field : Type := F_req_prod | F_req_event | F_rsp_prod | F_rsp_event.

Definition field_eqb (f g : field) : bool :=
  match f, g with
  | F_req_prod, F_req_prod | F_req_event, F_req_event
  | F_rsp_prod, F_rsp_prod | F_rsp_event, F_rsp_event => true
  | _, _ => false
  end.

Definition get_field (f : field) (s : sring) : Z :=
  match f with
  | F_req_prod => req_prod s
  | F_req_event => req_event s
  | F_rsp_prod => rsp_prod s
  | F_rsp_event => rsp_event s
  end.

(** Assignment to a member converts the right-hand side to [RING_IDX]. *)
Definition set_field (f : field) (x : Z) (s : sring) : sring :=
  match f with
  | F_req_prod => mk_sring (RING_IDX x) (req_event s) (rsp_prod s) (rsp_event s) (pad s)
  | F_req_event => mk_sring (req_prod s) (RING_IDX x) (rsp_prod s) (rsp_event s) (pad s)
  | F_rsp_prod => mk_sring (req_prod s) (req_event s) (RING_IDX x) (rsp_event s) (pad s)
  | F_rsp_event => mk_sring (req_prod s) (req_event s) (rsp_prod s) (RING_IDX x) (pad s)
  end.

(** The OCaml-side handle: a block whose field 0 is a bigarray; only the
    bigarray's data pointer matters to the stubs. *)
Record ring_handle : Type := mk_handle { ba_data : Z }.

(** [SRING_VAL(x)]: the data pointer of the bigarray in [Field(x,0)], cast
    to a pointer to [struct sring]. *)
Definition SRING_VAL (v_sring : ring_handle) : Z := ba_data v_sring.

(** ** Stub executions: state, trace and abort *)

(** What a stub does to shared memory, in program order. *)
Inductive event : Type :=
| EvLoad (f : field) (x : Z)
| EvStore (f : field) (x : Z)
| EvFence.

(** A C function either returns or dies in [assert]. *)
Inductive outcome (A : Type) : Type :=
| Returned (a : A)
| Aborted.
Arguments Returned {A} a.
Arguments Aborted {A}.

Record run (A : Type) : Type := mk_run {
  result : outcome A;
  shared : sring;
  trace : list event
}.
Arguments mk_run {A} _ _ _.
Arguments result {A} _.
Arguments shared {A} _.
Arguments trace {A} _.

Definition stub (A : Type) : Type := sring -> run A.

Definition ret {A : Type} (a : A) : stub A :=
  fun s => mk_run (Returned a) s [].

Definition bind {A B : Type} (m : stub A) (k : A -> stub B) : stub B :=
  fun s =>
    let r := m s in
    match result r with
    | Returned a =>
        let r' := k a (shared r) in
        mk_run (result r') (shared r') (trace r ++ trace r')
    | Aborted => mk_run Aborted (shared r) (trace r)
    end.

Declare Scope stub_scope.
Delimit Scope stub_scope with stub.
Notation "x <- m ;; k" := (bind m (fun x => k))
  (at level 61, m at next level, right associativity) : stub_scope.
Notation "m ;; k" := (bind m (fun _ => k))
  (at level 61, right associativity) : stub_scope.
Local Open Scope stub_scope.

(** [p->f] as an rvalue. *)
Definition load (f : field) : stub Z :=
  fun s => mk_run (Returned (get_field f s)) s [EvLoad f (get_field f s)].

(** [p->f = x;] *)
Definition store (f : field) (x : Z) : stub unit :=
  fun s => mk_run (Returned tt) (set_field f x s) [EvStore f (RING_IDX x)].

(** [__sync_synchronize()]: a full barrier. *)
Definition sync_synchronize : stub unit :=
  fun s => mk_run (Returned tt) s [EvFence].

(** [#define xen_mb() __sync_synchronize()] *)
Definition xen_mb : stub unit := sync_synchronize.
(** [#define xen_wmb() __sync_synchronize()] *)
Definition xen_wmb : stub unit := sync_synchronize.

(** [assert(c);] (compiled without [NDEBUG]). *)
Definition assert (c : bool) : stub unit :=
  fun s => if c then mk_run (Returned tt) s [] else mk_run Aborted s [].

(** ** The stubs *)

Definition caml_sring_rsp_prod (v_sring : ring_handle) : stub value :=
  x <- load F_rsp_prod ;;
  ret (Val_int x).

Definition caml_sring_req_prod (v_sring : ring_handle) : stub value :=
  x <- load F_req_prod ;;
  ret (Val_int x).

Definition caml_sring_req_event (v_sring : ring_handle) : stub value :=
  xen_mb ;;
  x <- load F_req_event ;;
  ret (Val_int x).

Definition caml_sring_rsp_event (v_sring : ring_handle) : stub value :=
  xen_mb ;;
  x <- load F_rsp_event ;;
  ret (Val_int x).

Definition caml_sring_push_requests (v_sring : ring_handle) (v_req_prod_pvt : value)
  : stub value :=
  let sring := SRING_VAL v_sring in
  assert (wrap 64 sring mod PAGE_SIZE =? 0) ;;
  xen_wmb ;;
  store F_req_prod (Int_val v_req_prod_pvt) ;;
  ret Val_unit.

Definition caml_sring_push_responses (v_sring : ring_handle) (v_rsp_prod_pvt : value)
  : stub value :=
  xen_wmb ;;
  store F_rsp_prod (Int_val v_rsp_prod_pvt) ;;
  ret Val_unit.

Definition caml_sring_set_rsp_event (v_sring : ring_handle) (v_rsp_cons : value)
  : stub value :=
  store F_rsp_event (Int_val v_rsp_cons) ;;
  xen_mb ;;
  ret Val_unit.

Definition caml_sring_set_req_event (v_sring : ring_handle) (v_req_cons : value)
  : stub value :=
  store F_req_event (Int_val v_req_cons) ;;
  xen_mb ;;
  ret Val_unit.

(** The stubs by kind, so that statements can range over them. *)
Inductive getter_op : Type := Get_rsp_prod | Get_req_prod | Get_req_event | Get_rsp_event.

Definition run_getter (g : getter_op) : ring_handle -> stub value :=
  match g with
  | Get_rsp_prod => caml_sring_rsp_prod
  | Get_req_prod => caml_sring_req_prod
  | Get_req_event => caml_sring_req_event
  | Get_rsp_event => caml_sring_rsp_event
  end.

Definition read_field (g : getter_op) : field :=
  match g with
  | Get_rsp_prod => F_rsp_prod
  | Get_req_prod => F_req_prod
  | Get_req_event => F_req_event
  | Get_rsp_event => F_rsp_event
  end.

Inductive publish_op : Type := Push_requests | Push_responses | Set_rsp_event | Set_req_event.

Definition run_publish (op : publish_op) : ring_handle -> value -> stub value :=
  match op with
  | Push_requests => caml_sring_push_requests
  | Push_responses => caml_sring_push_responses
  | Set_rsp_event => caml_sring_set_rsp_event
  | Set_req_event => caml_sring_set_req_event
  end.

Definition written_field (op : publish_op) : field :=
  match op with
  | Push_requests => F_req_prod
  | Push_responses => F_rsp_prod
  | Set_rsp_event => F_rsp_event
  | Set_req_event => F_req_event
  end.

(** The two ends of a ring.  The requesting end owns the private cursors
    [req_prod_pvt] and [rsp_cons], the arguments of
    [caml_sring_push_requests] and [caml_sring_set_rsp_event]; the
    responding end owns [rsp_prod_pvt] and [req_cons], the arguments of
    [caml_sring_push_responses] and [caml_sring_set_req_event]. *)
Inductive peer : Type := Requester | Responder.

Definition peer_publishes (p : peer) : list publish_op :=
  match p with
  | Requester => [Push_requests; Set_rsp_event]
  | Responder => [Push_responses; Set_req_event]
  end.

(** ** Reading traces *)

Definition is_fence (e : event) : bool :=
  match e with EvFence => true | _ => false end.

Definition is_load (f : field) (e : event) : bool :=
  match e with EvLoad g _ => field_eqb f g | _ => false end.

Definition is_store (f : field) (e : event) : bool :=
  match e with EvStore g _ => field_eqb f g | _ => false end.

Definition has_fence (tr : list event) : bool := existsb is_fence tr.

(** The members stored to, in program order. *)
Fixpoint stored_fields (tr : list event) : list field :=
  match tr with
  | [] => []
  | EvStore f _ :: tr' => f :: stored_fields tr'
  | _ :: tr' => stored_fields tr'
  end.

(** Every event of [tr] picked by [target] has a fence earlier in [tr];
    [seen] says whether a fence was already issued. *)
Fixpoint fence_before_from (seen : bool) (target : event -> bool) (tr : list event) : bool :=
  match tr with
  | [] => true
  | e :: tr' =>
      (if target e then seen else true)
      && fence_before_from (seen || is_fence e) target tr'
  end.

Definition fence_before (target : event -> bool) (tr : list event) : bool :=
  fence_before_from false target tr.

(** Every event of [tr] picked by [target] has a fence later in [tr]. *)
Fixpoint fence_after (target : event -> bool) (tr : list event) : bool :=
  match tr with
  | [] => true
  | e :: tr' =>
      (if target e then has_fence tr' else true) && fence_after target tr'
  end.

Definition is_returned {A : Type} (o : outcome A) : bool :=
  match o with Returned _ => true | Aborted => false end.

(** [(unsigned long)sring % PAGE_SIZE == 0] *)
Definition page_aligned (v_sring : ring_handle) : bool :=
  wrap 64 (SRING_VAL v_sring) mod PAGE_SIZE =? 0.

(** ** Layout of [struct sring] *)

Module Layout.

Record member : Type := mk_member { m_size : Z; m_align : Z }.

(** Round [off] up to a multiple of [a]. *)
Definition align_up (off a : Z) : Z := (off + a - 1) / a * a.

(** Offsets of the members laid out from [off], each at the next
    multiple of its alignment. *)
Fixpoint member_offsets (off : Z) (ms : list member) : list Z :=
  match ms with
  | [] => []
  | m :: ms' =>
      let o := align_up off (m_align m) in
      o :: member_offsets (o + m_size m) ms'
  end.

Fixpoint members_end (off : Z) (ms : list member) : Z :=
  match ms with
  | [] => off
  | m :: ms' => members_end (align_up off (m_align m) + m_size m) ms'
  end.

Definition struct_align (ms : list member) : Z :=
  fold_right (fun m a => Z.max (m_align m) a) 1 ms.

Definition sizeof_struct (ms : list member) : Z :=
  align_up (members_end 0 ms) (struct_align ms).

Definition RING_IDX_member : member := mk_member sizeof_RING_IDX sizeof_RING_IDX.
(** [uint8_t pad[64]] *)
Definition pad_member : member := mk_member 64 1.

Definition sring_members : list member :=
  [RING_IDX_member; RING_IDX_member; RING_IDX_member; RING_IDX_member; pad_member].

Definition sizeof_sring : Z := sizeof_struct sring_members.

Definition member_index (f : field) : nat :=
  match f with
  | F_req_prod => 0%nat
  | F_req_event => 1%nat
  | F_rsp_prod => 2%nat
  | F_rsp_event => 3%nat
  end.

Definition offsetof (f : field) : Z :=
  nth (member_index f) (member_offsets 0 sring_members) 0.

Definition offsetof_pad : Z := nth 4%nat (member_offsets 0 sring_members) 0.

(** Number of the cache line of [line] bytes that holds address [addr]. *)
Definition cache_line (line addr : Z) : Z := addr / line.

End Layout.

(** ** Index arithmetic and the notification decision *)

Module IndexArithmetic.

(** Modelled from the spec: [available] is not in [ring_stubs.c], which
    only moves raw indices; the index arithmetic layer defines it as
    "[produced - consumed] using wrapping unsigned subtraction". *)
Definition available (produced consumed : Z) : Z :=
  wrap RING_IDX_bits (produced - consumed).

(** Modelled from the spec: [notify_if_needed] is not in
    [ring_stubs.c].  The decision is taken after a publish that moved the
    produced index from [old_prod] to [new_prod] and "compares the new
    index against the peer's last-seen notification threshold": a
    notification is owed when the threshold lies in the index range
    just published, distances being taken back from the new index with
    the wrapping subtraction of the index arithmetic layer. *)
Definition notify_if_needed (old_prod new_prod event : Z) : bool :=
  wrap RING_IDX_bits (new_prod - event) <? wrap RING_IDX_bits (new_prod - old_prod).

(** The shared index that stands for a lifetime count of entries. *)
Definition index_of (count : Z) : Z := wrap RING_IDX_bits count.

(** On lifetime counts: moving the produced count from [old_count] to
    [new_count] crosses the threshold [event_count] when the count
    passes from below the threshold to at or above it. *)
Definition crosses (old_count new_count event_count : Z) : bool :=
  (old_count <? event_count) && (event_count <=? new_count).

(** The indices imply more outstanding entries than the ring holds. *)
Definition overrun (produced consumed capacity : Z) : bool :=
  capacity <? available produced consumed.

End IndexArithmetic.

(** ** Calls in sequence *)

(** A control block whose members hold values of their C types. *)
Definition sring_wf (s : sring) : Prop :=
  0 <= req_prod s < 2 ^ 32 /\ 0 <= req_event s < 2 ^ 32
  /\ 0 <= rsp_prod s < 2 ^ 32 /\ 0 <= rsp_event s < 2 ^ 32
  /\ length (pad s) = 64%nat.

(** The getter that reads the member a publish operation writes. *)
Definition getter_of (op : publish_op) : getter_op :=
  match op with
  | Push_requests => Get_req_prod
  | Push_responses => Get_rsp_prod
  | Set_rsp_event => Get_rsp_event
  | Set_req_event => Get_req_event
  end.

Definition is_push (op : publish_op) : bool :=
  match op with Push_requests | Push_responses => true | _ => false end.

Definition reads_prod (g : getter_op) : bool :=
  match g with Get_rsp_prod | Get_req_prod => true | _ => false end.

(** A publish followed by a getter, as an OCaml caller runs them one
    after the other. *)
Definition publish_then_get (op : publish_op) (g : getter_op)
  (h : ring_handle) (v : value) : stub value :=
  run_publish op h v ;; run_getter g h.

(** A getter whose result is handed straight back to a publish. *)
Definition get_then_publish (g : getter_op) (op : publish_op)
  (h : ring_handle) : stub value :=
  x <- run_getter g h ;; run_publish op h x.

(** Two publishes, one after the other. *)
Definition publish_twice (op1 op2 : publish_op) (h : ring_handle)
  (v1 v2 : value) : stub value :=
  run_publish op1 h v1 ;; run_publish op2 h v2.

(** No event picked by [b] follows an event picked by [a] without a fence
    between the two; [pending] says that an [a] event was seen and no
    fence since. *)
Fixpoint fence_between_from (pending : bool) (a b : event -> bool)
  (tr : list event) : bool :=
  match tr with
  | [] => true
  | e :: tr' =>
      (if b e then negb pending else true)
      && fence_between_from
           (if a e then true else if is_fence e then false else pending) a b tr'
  end.

Definition fence_between (a b : event -> bool) (tr : list event) : bool :=
  fence_between_from false a b tr.

(** Number of the page that holds address [addr]. *)
Definition page_of (addr : Z) : Z := addr / PAGE_SIZE.

(** A control block to run the stubs on: forty requests and thirty-seven
    responses produced so far. *)
Definition sample_ring : sring := mk_sring 40 41 37 38 (repeat 0 64).
Definition sample_handle : ring_handle := mk_handle 8192.

(** A control block in which a hundred requests were produced, read by a
    consumer that has taken none from a ring of thirty-two slots. *)
Definition overrun_ring : sring := mk_sring 100 0 0 0 (repeat 0 64).

(** * Properties *)

(** ** Conversions between C and OCaml integers *)

Lemma wrap_small (bits x : Z) : 0 <= x < 2 ^ bits -> wrap bits x = x.
Proof. intros H. unfold wrap. apply Z.mod_small. exact H. Qed.

Example Val_int_100 : Val_int 100 = 201.
Proof. reflexivity. Qed.

Example Val_int_max_index : Val_int (2 ^ 32 - 1) = 2 ^ 33 - 1.
Proof. reflexivity. Qed.

(** The largest index comes back from OCaml as the [int] -1 and is stored
    as 2^32 - 1 again. *)
Example Int_val_max_index :
  Int_val (2 ^ 33 - 1) = -1 /\ RING_IDX (Int_val (2 ^ 33 - 1)) = 2 ^ 32 - 1.
Proof. split; reflexivity. Qed.

(** An index read by a getter and handed back to a setter is stored
    unchanged. *)
Lemma RING_IDX_Int_val_Val_int (x : Z) :
  0 <= x < 2 ^ 32 -> RING_IDX (Int_val (Val_int x)) = x.
Proof.
  intros Hx. unfold Val_int, Val_long, Int_val, Long_val, RING_IDX, RING_IDX_bits.
  rewrite (wrap_small 64 x) by lia.
  rewrite Z.shiftl_mul_pow2 by lia. change (2 ^ 1) with 2.
  rewrite (wrap_small 64 (x * 2)) by lia.
  assert (Hs : swrap 64 (x * 2) = x * 2).
  { unfold swrap. rewrite Z.mod_small by lia. lia. }
  rewrite Hs. rewrite Z.shiftr_div_pow2 by lia. change (2 ^ 1) with 2.
  replace ((x * 2 + 1) / 2) with x
    by (apply (Z.div_unique (x * 2 + 1) 2 x 1); lia).
  unfold swrap, wrap. change (32 - 1) with 31.
  destruct (Z_lt_le_dec x (2 ^ 31)) as [Hlo | Hhi].
  - rewrite (Z.mod_small (x + 2 ^ 31)) by lia.
    replace (x + 2 ^ 31 - 2 ^ 31) with x by lia.
    apply Z.mod_small. lia.
  - replace ((x + 2 ^ 31) mod 2 ^ 32) with (x + 2 ^ 31 - 2 ^ 32).
    + replace (x + 2 ^ 31 - 2 ^ 32 - 2 ^ 31) with (x + (-1) * 2 ^ 32) by lia.
      rewrite Z_mod_plus_full. apply Z.mod_small. lia.
    + rewrite <- (Z_mod_plus_full (x + 2 ^ 31) (-1) (2 ^ 32)).
      symmetry. apply Z.mod_small. lia.
Qed.

(** ** What the trace tests say *)

Lemma is_fence_true (e : event) : is_fence e = true <-> e = EvFence.
Proof. destruct e; simpl; split; intros H; try reflexivity; discriminate H. Qed.

Lemma has_fence_In (tr : list event) : has_fence tr = true <-> In EvFence tr.
Proof.
  unfold has_fence. rewrite existsb_exists. split.
  - intros [e [Hin He]]. apply is_fence_true in He. subst e. exact Hin.
  - intros Hin. exists EvFence. split; [exact Hin | reflexivity].
Qed.

(** [fence_after]: wherever a picked event stands in the trace, a fence
    stands after it. *)
Lemma fence_after_spec (target : event -> bool) (tr : list event) :
  fence_after target tr = true <->
  (forall pre e post, tr = pre ++ e :: post -> target e = true -> In EvFence post).
Proof.
  induction tr as [| e0 tr' IH]; simpl.
  - split; [| reflexivity]. intros _ [| x pre] e post Heq; discriminate Heq.
  - rewrite andb_true_iff, IH. split.
    + intros [Hhd Htl] [| x pre] e post Heq Ht; injection Heq as -> ->.
      * rewrite Ht in Hhd. apply has_fence_In. exact Hhd.
      * apply (Htl pre e post eq_refl Ht).
    + intros H. split.
      * destruct (target e0) eqn:Ht; [| reflexivity].
        apply has_fence_In. apply (H [] e0 tr' eq_refl Ht).
      * intros pre e post -> Ht. apply (H (e0 :: pre) e post eq_refl Ht).
Qed.

(** [fence_before]: wherever a picked event stands in the trace, a fence
    stands before it. *)
Lemma fence_before_from_spec (target : event -> bool) (tr : list event) :
  forall seen : bool,
    fence_before_from seen target tr = true <->
    (forall pre e post, tr = pre ++ e :: post -> target e = true ->
                        seen = true \/ In EvFence pre).
Proof.
  induction tr as [| e0 tr' IH]; intros seen; simpl.
  - split; [| reflexivity]. intros _ [| x pre] e post Heq; discriminate Heq.
  - rewrite andb_true_iff, IH. split.
    + intros [Hhd Htl] [| x pre] e post Heq Ht; injection Heq as -> ->.
      * rewrite Ht in Hhd. left. exact Hhd.
      * destruct (Htl pre e post eq_refl Ht) as [Hs | Hin].
        -- apply orb_true_iff in Hs. destruct Hs as [Hs | Hf].
           ++ left. exact Hs.
           ++ right. left. apply is_fence_true in Hf. exact Hf.
        -- right. right. exact Hin.
    + intros H. split.
      * destruct (target e0) eqn:Ht; [| reflexivity].
        destruct (H [] e0 tr' eq_refl Ht) as [Hs | []]. exact Hs.
      * intros pre e post -> Ht.
        destruct (H (e0 :: pre) e post eq_refl Ht) as [Hs | [Hf | Hin]].
        -- left. rewrite Hs. reflexivity.
        -- left. subst e0. apply orb_true_r.
        -- right. exact Hin.
Qed.

Lemma fence_before_spec (target : event -> bool) (tr : list event) :
  fence_before target tr = true <->
  (forall pre e post, tr = pre ++ e :: post -> target e = true -> In EvFence pre).
Proof.
  unfold fence_before. rewrite fence_before_from_spec. split.
  - intros H pre e post Heq Ht. destruct (H pre e post Heq Ht) as [Hs | Hin].
    + discriminate Hs.
    + exact Hin.
  - intros H pre e post Heq Ht. right. apply (H pre e post Heq Ht).
Qed.

(** ** Evaluating a stub *)

Ltac run_stub :=
  unfold run_getter, run_publish,
    caml_sring_rsp_prod, caml_sring_req_prod, caml_sring_req_event,
    caml_sring_rsp_event, caml_sring_push_requests, caml_sring_push_responses,
    caml_sring_set_rsp_event, caml_sring_set_req_event,
    xen_mb, xen_wmb, sync_synchronize, load, store, assert, bind, ret;
  cbn [result shared trace app].

Lemma field_eqb_refl (f : field) : field_eqb f f = true.
Proof. destruct f; reflexivity. Qed.

Lemma field_eqb_eq (f g : field) : field_eqb f g = true <-> f = g.
Proof. destruct f, g; simpl; split; intros H; try reflexivity; discriminate H. Qed.

(** Member assignment changes the member assigned and nothing else. *)
Lemma get_set_field (f g : field) (x : Z) (s : sring) :
  get_field g (set_field f x s) = if field_eqb g f then RING_IDX x else get_field g s.
Proof. destruct f, g; reflexivity. Qed.

Lemma pad_set_field (f : field) (x : Z) (s : sring) : pad (set_field f x s) = pad s.
Proof. destruct f; reflexivity. Qed.

Lemma push_requests_run (h : ring_handle) (v : value) (s : sring) :
  caml_sring_push_requests h v s =
  if page_aligned h
  then mk_run (Returned Val_unit) (set_field F_req_prod (Int_val v) s)
         [EvFence; EvStore F_req_prod (RING_IDX (Int_val v))]
  else mk_run Aborted s [].
Proof.
  unfold page_aligned. run_stub.
  destruct (wrap 64 (SRING_VAL h) mod PAGE_SIZE =? 0); reflexivity.
Qed.

Lemma push_responses_run (h : ring_handle) (v : value) (s : sring) :
  caml_sring_push_responses h v s =
  mk_run (Returned Val_unit) (set_field F_rsp_prod (Int_val v) s)
    [EvFence; EvStore F_rsp_prod (RING_IDX (Int_val v))].
Proof. reflexivity. Qed.

Lemma set_rsp_event_run (h : ring_handle) (v : value) (s : sring) :
  caml_sring_set_rsp_event h v s =
  mk_run (Returned Val_unit) (set_field F_rsp_event (Int_val v) s)
    [EvStore F_rsp_event (RING_IDX (Int_val v)); EvFence].
Proof. reflexivity. Qed.

Lemma set_req_event_run (h : ring_handle) (v : value) (s : sring) :
  caml_sring_set_req_event h v s =
  mk_run (Returned Val_unit) (set_field F_req_event (Int_val v) s)
    [EvStore F_req_event (RING_IDX (Int_val v)); EvFence].
Proof. reflexivity. Qed.

Lemma getter_run (g : getter_op) (h : ring_handle) (s : sring) :
  run_getter g h s =
  mk_run (Returned (Val_int (get_field (read_field g) s))) s
    (match g with
     | Get_rsp_prod | Get_req_prod => [EvLoad (read_field g) (get_field (read_field g) s)]
     | Get_req_event | Get_rsp_event =>
         [EvFence; EvLoad (read_field g) (get_field (read_field g) s)]
     end).
Proof. destruct g; reflexivity. Qed.

(** ** Barrier discipline *)

Section Barriers.

Variables (h : ring_handle) (s : sring).

(** C1. Both operations that publish a produced index,
    [caml_sring_push_requests] and [caml_sring_push_responses], issue the
    barrier [xen_wmb] (a full barrier) and only then store the new value
    into the shared produced member: when the call publishes, its trace is
    the fence followed by the store, the store to the produced member has a
    fence before it, and the member holds the new value afterwards.  A
    call of [caml_sring_push_requests] that dies in its [assert] publishes
    nothing. *)
Theorem push_fence_precedes_store (v : value) :
  let rq := caml_sring_push_requests h v s in
  let rs := caml_sring_push_responses h v s in
  trace rs = [EvFence; EvStore F_rsp_prod (RING_IDX (Int_val v))]
  /\ get_field F_rsp_prod (shared rs) = RING_IDX (Int_val v)
  /\ fence_before (is_store F_rsp_prod) (trace rs) = true
  /\ trace rq = (if page_aligned h
                 then [EvFence; EvStore F_req_prod (RING_IDX (Int_val v))]
                 else [])
  /\ get_field F_req_prod (shared rq) =
       (if page_aligned h then RING_IDX (Int_val v) else req_prod s)
  /\ fence_before (is_store F_req_prod) (trace rq) = true.
Proof.
  cbv zeta. rewrite push_requests_run, push_responses_run.
  destruct (page_aligned h); cbn [trace shared]; rewrite ?get_set_field;
    repeat split; reflexivity.
Qed.

(** C5. Both operations that publish an event threshold,
    [caml_sring_set_rsp_event] and [caml_sring_set_req_event], first store
    the new value into the shared event member and then issue the barrier
    [xen_mb], in that order, and always return. *)
Theorem set_event_store_then_fence (v : value) :
  let rr := caml_sring_set_rsp_event h v s in
  let rq := caml_sring_set_req_event h v s in
  trace rr = [EvStore F_rsp_event (RING_IDX (Int_val v)); EvFence]
  /\ trace rq = [EvStore F_req_event (RING_IDX (Int_val v)); EvFence]
  /\ fence_after (is_store F_rsp_event) (trace rr) = true
  /\ fence_after (is_store F_req_event) (trace rq) = true
  /\ fence_before (is_store F_rsp_event) (trace rr) = false
  /\ fence_before (is_store F_req_event) (trace rq) = false
  /\ get_field F_rsp_event (shared rr) = RING_IDX (Int_val v)
  /\ get_field F_req_event (shared rq) = RING_IDX (Int_val v)
  /\ result rr = Returned Val_unit
  /\ result rq = Returned Val_unit.
Proof.
  cbv zeta. rewrite set_rsp_event_run, set_req_event_run.
  cbn [trace shared result]. rewrite !get_set_field.
  repeat split; reflexivity.
Qed.

(** C2, as the code has it.  The two getters of a produced index,
    [caml_sring_req_prod] and [caml_sring_rsp_prod], do one load of the
    member and return it as an OCaml integer; they issue no barrier, before
    or after the load, and leave the control block as it was. *)
Theorem prod_getters_load_without_fence :
  let rq := caml_sring_req_prod h s in
  let rs := caml_sring_rsp_prod h s in
  trace rq = [EvLoad F_req_prod (req_prod s)]
  /\ trace rs = [EvLoad F_rsp_prod (rsp_prod s)]
  /\ has_fence (trace rq) = false
  /\ has_fence (trace rs) = false
  /\ result rq = Returned (Val_int (req_prod s))
  /\ result rs = Returned (Val_int (rsp_prod s))
  /\ shared rq = s
  /\ shared rs = s.
Proof. cbv zeta. repeat split; reflexivity. Qed.

(** C3, as the code has it.  The two getters of an event threshold,
    [caml_sring_req_event] and [caml_sring_rsp_event], issue the barrier
    [xen_mb] first and load the threshold after it: the load has a fence
    before it and none after it. *)
Theorem event_getters_fence_then_load :
  let rq := caml_sring_req_event h s in
  let rs := caml_sring_rsp_event h s in
  trace rq = [EvFence; EvLoad F_req_event (req_event s)]
  /\ trace rs = [EvFence; EvLoad F_rsp_event (rsp_event s)]
  /\ fence_before (is_load F_req_event) (trace rq) = true
  /\ fence_before (is_load F_rsp_event) (trace rs) = true
  /\ fence_after (is_load F_req_event) (trace rq) = false
  /\ fence_after (is_load F_rsp_event) (trace rs) = false
  /\ result rq = Returned (Val_int (req_event s))
  /\ result rs = Returned (Val_int (rsp_event s)).
Proof. cbv zeta. repeat split; reflexivity. Qed.

End Barriers.

(** C2, as stated, fails: the trace of [caml_sring_req_prod] is the load
    alone, so no fence follows the load of the produced index (and the same
    for [caml_sring_rsp_prod]). *)
Lemma prod_getter_no_fence_after_load :
  trace (caml_sring_req_prod sample_handle sample_ring) = [EvLoad F_req_prod 40]
  /\ fence_after (is_load F_req_prod)
       (trace (caml_sring_req_prod sample_handle sample_ring)) = false
  /\ fence_after (is_load F_rsp_prod)
       (trace (caml_sring_rsp_prod sample_handle sample_ring)) = false.
Proof. repeat split; reflexivity. Qed.

(** C3, as stated, fails: in [caml_sring_req_event] the only fence comes
    before the load of the threshold, so no fence follows the load (and the
    same for [caml_sring_rsp_event]). *)
Lemma event_getter_no_fence_after_load :
  trace (caml_sring_req_event sample_handle sample_ring) = [EvFence; EvLoad F_req_event 41]
  /\ fence_after (is_load F_req_event)
       (trace (caml_sring_req_event sample_handle sample_ring)) = false
  /\ fence_after (is_load F_rsp_event)
       (trace (caml_sring_rsp_event sample_handle sample_ring)) = false.
Proof. repeat split; reflexivity. Qed.

(** ** Faults and frames *)

Lemma page_aligned_spec (h : ring_handle) :
  page_aligned h = (SRING_VAL h mod PAGE_SIZE =? 0).
Proof.
  unfold page_aligned, wrap, PAGE_SIZE.
  rewrite Z.mod_mod_divide; [reflexivity |].
  exists (2 ^ 52). reflexivity.
Qed.

(** C10. [caml_sring_push_requests] asserts that the ring pointer is a
    multiple of [PAGE_SIZE]: it returns when the address modulo 4096 is 0
    and dies in the assertion otherwise.  [caml_sring_push_responses], the
    two event setters and the four getters make no such test and return
    for every ring pointer. *)
Theorem only_push_requests_checks_alignment
  (h : ring_handle) (v : value) (s : sring) (g : getter_op) :
  result (caml_sring_push_requests h v s) =
    (if SRING_VAL h mod 4096 =? 0 then Returned Val_unit else Aborted)
  /\ (result (caml_sring_push_requests h v s) = Aborted <-> SRING_VAL h mod 4096 <> 0)
  /\ result (caml_sring_push_responses h v s) = Returned Val_unit
  /\ result (caml_sring_set_rsp_event h v s) = Returned Val_unit
  /\ result (caml_sring_set_req_event h v s) = Returned Val_unit
  /\ result (run_getter g h s) = Returned (Val_int (get_field (read_field g) s)).
Proof.
  rewrite push_requests_run, page_aligned_spec, getter_run. unfold PAGE_SIZE.
  destruct (Z.eqb_spec (SRING_VAL h mod 4096) 0) as [E | E]; cbn [result];
    repeat split; try reflexivity; try discriminate; intros; congruence.
Qed.

(** C8. A publish operation stores to one index member, the one named
    after it, and to no other: after [caml_sring_push_requests] only
    [req_prod] can differ, after [caml_sring_push_responses] only
    [rsp_prod], after [caml_sring_set_rsp_event] only [rsp_event], after
    [caml_sring_set_req_event] only [req_event]; the pad is untouched.  A
    getter stores nothing and leaves the control block as it was.  So the
    requesting end, through its two operations, writes [req_prod] and
    [rsp_event], and the responding end writes [rsp_prod] and [req_event]:
    two members each, no member in common. *)
Theorem publish_writes_one_field
  (op : publish_op) (gt : getter_op) (h : ring_handle) (v : value) (s : sring)
  (g : field) :
  let r := run_publish op h v s in
  get_field g (shared r) =
    (if field_eqb g (written_field op) && is_returned (result r)
     then RING_IDX (Int_val v) else get_field g s)
  /\ pad (shared r) = pad s
  /\ stored_fields (trace r) = (if is_returned (result r) then [written_field op] else [])
  /\ is_returned (result r) =
       (match op with Push_requests => page_aligned h | _ => true end)
  /\ shared (run_getter gt h s) = s
  /\ stored_fields (trace (run_getter gt h s)) = []
  /\ map written_field (peer_publishes Requester) = [F_req_prod; F_rsp_event]
  /\ map written_field (peer_publishes Responder) = [F_rsp_prod; F_req_event].
Proof.
  cbv zeta. rewrite getter_run.
  assert (Hg : stored_fields (trace (run_getter gt h s)) = [])
    by (destruct gt; reflexivity).
  destruct op; cbn [run_publish written_field];
    rewrite ?push_requests_run, ?push_responses_run, ?set_rsp_event_run,
      ?set_req_event_run;
    try destruct (page_aligned h);
    cbn [result shared trace is_returned stored_fields];
    rewrite ?get_set_field, ?pad_set_field, ?andb_true_r, ?andb_false_r;
    repeat split; try reflexivity.
  all: destruct gt; reflexivity.
Qed.

(** C4, as the code has it.  No stub compares indices with a capacity.
    When the produced index held in the control block is more than
    [capacity] entries ahead of the reader's own cursor [consumed], the
    getter still returns: its result is the raw stored index, no fault is
    raised, and the control block is left as it was. *)
Theorem overrun_read_returns_raw_index
  (g : getter_op) (h : ring_handle) (s : sring) (consumed capacity : Z) :
  IndexArithmetic.overrun (get_field (read_field g) s) consumed capacity = true ->
  result (run_getter g h s) = Returned (Val_int (get_field (read_field g) s))
  /\ is_returned (result (run_getter g h s)) = true
  /\ shared (run_getter g h s) = s.
Proof.
  intros _. rewrite getter_run. repeat split; reflexivity.
Qed.

Lemma overrun_read_returns_raw_index_witness :
  IndexArithmetic.overrun (get_field (read_field Get_req_prod) overrun_ring) 0 32 = true
  /\ result (run_getter Get_req_prod sample_handle overrun_ring) = Returned (Val_int 100)
  /\ is_returned (result (run_getter Get_req_prod sample_handle overrun_ring)) = true
  /\ shared (run_getter Get_req_prod sample_handle overrun_ring) = overrun_ring.
Proof.
  split; [reflexivity |].
  apply (overrun_read_returns_raw_index Get_req_prod sample_handle overrun_ring 0 32).
  reflexivity.
Defined.

(** C4, as stated, fails: with a hundred requests produced, none consumed
    and thirty-two slots, the indices imply an overrun, yet
    [caml_sring_req_prod] returns the raw index 100 (the OCaml integer 100,
    the word 201) and does not abort. *)
Lemma overrun_not_surfaced :
  IndexArithmetic.overrun (req_prod overrun_ring) 0 32 = true
  /\ result (caml_sring_req_prod sample_handle overrun_ring) = Returned 201
  /\ result (caml_sring_req_prod sample_handle overrun_ring) <> Aborted.
Proof. repeat split; try reflexivity. discriminate. Qed.

(** ** Layout of the header *)

(** Two addresses at least [line] bytes apart lie in different lines. *)
Lemma cache_line_apart (line a b : Z) :
  0 < line -> a + line <= b -> Layout.cache_line line a <> Layout.cache_line line b.
Proof.
  unfold Layout.cache_line. intros Hl Hab Heq.
  pose proof (Z.mod_pos_bound a line Hl) as Ha.
  pose proof (Z.mod_pos_bound b line Hl) as Hb.
  pose proof (Z.div_mod a line ltac:(lia)) as Da.
  pose proof (Z.div_mod b line ltac:(lia)) as Db.
  rewrite Heq in Da. lia.
Qed.

(** C9. [struct sring] lays the four 32-bit indices out at bytes 0, 4, 8
    and 12, so they fill bytes 0 to 15, and the pad after them at byte 16;
    the header is 16 + 64 = 80 bytes long.  For cache lines of up to 64
    bytes, wherever the block starts, no byte of an index member lies in
    the cache line of a byte at or after the end of the header, where the
    first slot of an entry array that follows the header starts. *)
Theorem sring_header_layout (base line i j : Z) (f : field) :
  0 < line <= 64 ->
  0 <= i < sizeof_RING_IDX ->
  Layout.sizeof_sring <= j ->
  Layout.member_offsets 0 Layout.sring_members = [0; 4; 8; 12; 16]
  /\ Layout.sizeof_sring = 16 + 64
  /\ 0 <= Layout.offsetof f
  /\ Layout.offsetof f + sizeof_RING_IDX <= Layout.offsetof_pad
  /\ Layout.offsetof_pad = 16
  /\ Layout.cache_line line (base + Layout.offsetof f + i)
     <> Layout.cache_line line (base + j).
Proof.
  intros Hl Hi Hj.
  assert (Hs : Layout.sizeof_sring = 80) by reflexivity.
  assert (Hp : Layout.offsetof_pad = 16) by reflexivity.
  assert (Hw : sizeof_RING_IDX = 4) by reflexivity.
  assert (Hf : 0 <= Layout.offsetof f <= 12)
    by (destruct f; vm_compute; split; discriminate).
  repeat split; try reflexivity; try lia.
  apply cache_line_apart; lia.
Qed.

Lemma sring_header_layout_witness :
  Layout.cache_line 64 (4096 + Layout.offsetof F_rsp_event + 3)
  <> Layout.cache_line 64 (4096 + 80).
Proof.
  apply (sring_header_layout 4096 64 3 80 F_rsp_event).
  - lia.
  - vm_compute. split; [discriminate | reflexivity].
  - vm_compute. discriminate.
Defined.

(** With cache lines of 128 bytes the 80-byte header is too short: on a
    page-aligned block the last index and the byte after the header are
    in one line. *)
Lemma sring_header_shares_wide_line :
  Layout.cache_line 128 (4096 + Layout.offsetof F_rsp_event)
  = Layout.cache_line 128 (4096 + Layout.sizeof_sring).
Proof. reflexivity. Qed.

(** ** Index arithmetic *)

Lemma wrap_sub_wrap (bits x y : Z) :
  wrap bits (wrap bits x - wrap bits y) = wrap bits (x - y).
Proof. unfold wrap. symmetry. apply Zminus_mod. Qed.

Lemma wrap_negative (x : Z) :
  - 2 ^ 32 <= x < 0 -> wrap RING_IDX_bits x = x + 2 ^ 32.
Proof.
  intros H. unfold wrap, RING_IDX_bits.
  rewrite <- (Z_mod_plus_full x 1 (2 ^ 32)).
  apply Z.mod_small. lia.
Qed.

(** C7. Take two indices that stand for lifetime counts at most
    [capacity] apart, the consumed count not ahead of the produced one.
    Then [available] is the wrapping 32-bit difference of the indices, it
    is the number of entries produced and not yet consumed, and it lies
    between 0 and [capacity]; this holds for any counts, also when the
    produced count has wrapped past 2^32 and the consumed one has not. *)
Theorem available_counts_outstanding (capacity produced_count consumed_count : Z) :
  0 <= capacity < 2 ^ 32 ->
  consumed_count <= produced_count <= consumed_count + capacity ->
  let produced := IndexArithmetic.index_of produced_count in
  let consumed := IndexArithmetic.index_of consumed_count in
  IndexArithmetic.available produced consumed = wrap 32 (produced - consumed)
  /\ IndexArithmetic.available produced consumed = produced_count - consumed_count
  /\ 0 <= IndexArithmetic.available produced consumed <= capacity.
Proof.
  intros Hc Hpc. cbv zeta. split; [reflexivity |].
  unfold IndexArithmetic.available, IndexArithmetic.index_of.
  rewrite wrap_sub_wrap.
  rewrite (wrap_small RING_IDX_bits (produced_count - consumed_count))
    by (unfold RING_IDX_bits; lia).
  repeat split; try reflexivity; lia.
Qed.

Lemma available_counts_outstanding_witness :
  IndexArithmetic.index_of (2 ^ 32 + 3) = 3
  /\ IndexArithmetic.index_of (2 ^ 32 - 5) = 4294967291
  /\ IndexArithmetic.available 3 4294967291 = 8.
Proof.
  split; [reflexivity |]. split; [reflexivity |].
  apply (available_counts_outstanding 32 (2 ^ 32 + 3) (2 ^ 32 - 5)); lia.
Defined.

(** C6. Take a publish that moved the produced count from [old_count] to
    [new_count], by at most [capacity] entries, and a threshold within
    [capacity] of the new count, on a ring of at most 2^31 slots.  On the
    32-bit indices of these counts [notify_if_needed] is true exactly when
    the publish crossed the threshold (the old count was below it and the
    new count is at or above it), and false otherwise. *)
Theorem notify_iff_threshold_crossed (capacity old_count new_count event_count : Z) :
  0 < capacity <= 2 ^ 31 ->
  old_count <= new_count <= old_count + capacity ->
  new_count - capacity <= event_count <= new_count + capacity ->
  IndexArithmetic.notify_if_needed
    (IndexArithmetic.index_of old_count)
    (IndexArithmetic.index_of new_count)
    (IndexArithmetic.index_of event_count)
  = IndexArithmetic.crosses old_count new_count event_count.
Proof.
  intros Hc Ho He.
  unfold IndexArithmetic.notify_if_needed, IndexArithmetic.index_of,
    IndexArithmetic.crosses.
  rewrite !wrap_sub_wrap.
  rewrite (wrap_small RING_IDX_bits (new_count - old_count))
    by (unfold RING_IDX_bits; lia).
  destruct (Z_lt_le_dec (new_count - event_count) 0) as [Hneg | Hpos].
  - rewrite wrap_negative by lia.
    destruct (Z.ltb_spec (new_count - event_count + 2 ^ 32) (new_count - old_count));
      destruct (Z.ltb_spec old_count event_count);
      destruct (Z.leb_spec event_count new_count); simpl; try reflexivity; lia.
  - rewrite (wrap_small RING_IDX_bits (new_count - event_count))
      by (unfold RING_IDX_bits; lia).
    destruct (Z.ltb_spec (new_count - event_count) (new_count - old_count));
      destruct (Z.ltb_spec old_count event_count);
      destruct (Z.leb_spec event_count new_count); simpl; try reflexivity; lia.
Qed.

Lemma notify_iff_threshold_crossed_witness :
  IndexArithmetic.notify_if_needed
    (IndexArithmetic.index_of (2 ^ 32 - 2))
    (IndexArithmetic.index_of (2 ^ 32 + 3))
    (IndexArithmetic.index_of (2 ^ 32 + 1))
  = IndexArithmetic.crosses (2 ^ 32 - 2) (2 ^ 32 + 3) (2 ^ 32 + 1).
Proof.
  apply (notify_iff_threshold_crossed 32 (2 ^ 32 - 2) (2 ^ 32 + 3) (2 ^ 32 + 1)); lia.
Defined.

(** * Further properties of the stubs *)

(** ** OCaml integers through the C conversions *)

Lemma wrap_swrap (bits x : Z) : wrap bits (swrap bits x) = wrap bits x.
Proof.
  unfold wrap, swrap. rewrite Zminus_mod_idemp_l. f_equal. lia.
Qed.

(** On the 63-bit range of OCaml integers [Val_long] is the tagging
    [2n+1]. *)
Lemma Val_long_tag (n : Z) : - 2 ^ 62 <= n < 2 ^ 62 -> Val_long n = 2 * n + 1.
Proof.
  intros Hn. unfold Val_long. f_equal.
  rewrite Z.shiftl_mul_pow2 by lia. change (2 ^ 1) with 2.
  unfold swrap, wrap. change (64 - 1) with 63.
  rewrite Z.mul_mod_idemp_l by lia.
  rewrite Zplus_mod_idemp_l.
  rewrite Z.mod_small by lia. lia.
Qed.

Lemma Long_val_tag (n : Z) : Long_val (2 * n + 1) = n.
Proof.
  unfold Long_val. rewrite Z.shiftr_div_pow2 by lia. change (2 ^ 1) with 2.
  symmetry. apply (Z.div_unique (2 * n + 1) 2 n 1); lia.
Qed.

Lemma RING_IDX_Int_val_Val_long (n : Z) :
  - 2 ^ 62 <= n < 2 ^ 62 -> RING_IDX (Int_val (Val_long n)) = n mod 2 ^ 32.
Proof.
  intros Hn. rewrite (Val_long_tag n Hn). unfold Int_val.
  rewrite Long_val_tag. unfold RING_IDX, RING_IDX_bits.
  rewrite wrap_swrap. reflexivity.
Qed.

Lemma publish_run (op : publish_op) (h : ring_handle) (v : value) (s : sring) :
  run_publish op h v s =
  if is_returned (result (run_publish op h v s))
  then mk_run (Returned Val_unit) (set_field (written_field op) (Int_val v) s)
         (trace (run_publish op h v s))
  else mk_run Aborted s [].
Proof.
  destruct op; cbn [run_publish written_field];
    rewrite ?push_requests_run; try destruct (page_aligned h); reflexivity.
Qed.

Lemma publish_returns (op : publish_op) (h : ring_handle) (v : value) (s : sring) :
  is_returned (result (run_publish op h v s)) =
  match op with Push_requests => page_aligned h | _ => true end.
Proof.
  destruct op; cbn [run_publish];
    rewrite ?push_requests_run; try destruct (page_aligned h); reflexivity.
Qed.

Lemma read_field_getter_of (op : publish_op) :
  read_field (getter_of op) = written_field op.
Proof. destruct op; reflexivity. Qed.

(** X1. Whatever OCaml integer [n] a caller passes to a publish operation
    (any of the 63-bit range, negative ones included), the member ends up
    holding [n] modulo 2^32: only the low 32 bits of the caller's cursor
    reach the shared index. *)
Theorem publish_stores_low_32_bits
  (op : publish_op) (h : ring_handle) (n : Z) (s : sring) :
  - 2 ^ 62 <= n < 2 ^ 62 ->
  is_returned (result (run_publish op h (Val_long n) s)) = true ->
  get_field (written_field op) (shared (run_publish op h (Val_long n) s))
  = n mod 2 ^ 32.
Proof.
  intros Hn Hret. rewrite publish_run, Hret. cbn [shared].
  rewrite get_set_field, field_eqb_refl.
  apply RING_IDX_Int_val_Val_long. exact Hn.
Qed.

Lemma publish_stores_low_32_bits_witness :
  get_field F_rsp_prod
    (shared (run_publish Push_responses sample_handle (Val_long (2 ^ 32 + 5)) sample_ring))
  = 5
  /\ get_field F_req_event
       (shared (run_publish Set_req_event sample_handle (Val_long (-1)) sample_ring))
     = 2 ^ 32 - 1.
Proof.
  split.
  - apply (publish_stores_low_32_bits Push_responses sample_handle (2 ^ 32 + 5) sample_ring).
    + lia.
    + reflexivity.
  - apply (publish_stores_low_32_bits Set_req_event sample_handle (-1) sample_ring).
    + lia.
    + reflexivity.
Defined.

(** ** A publish followed by a read *)

Lemma publish_then_get_run
  (op : publish_op) (g : getter_op) (h : ring_handle) (v : value) (s : sring) :
  publish_then_get op g h v s =
  if is_returned (result (run_publish op h v s))
  then
    let s' := set_field (written_field op) (Int_val v) s in
    mk_run (Returned (Val_int (get_field (read_field g) s'))) s'
      (trace (run_publish op h v s) ++ trace (run_getter g h s'))
  else mk_run Aborted s [].
Proof.
  unfold publish_then_get, bind. rewrite (publish_run op h v s).
  destruct (is_returned (result (run_publish op h v s))); cbn [result shared trace].
  - cbv zeta. rewrite getter_run. reflexivity.
  - reflexivity.
Qed.

(** X2. Round trip.  An index [x] of the 32-bit range, published as the
    OCaml integer [x] by any of the four publish operations and read back
    with the getter of the same member, comes back as the OCaml integer
    [x], whatever the member held before; so a publish can also move an
    index backwards. *)
Theorem publish_then_read_back
  (op : publish_op) (h : ring_handle) (x : Z) (s : sring) :
  0 <= x < 2 ^ 32 ->
  is_returned (result (run_publish op h (Val_int x) s)) = true ->
  result (publish_then_get op (getter_of op) h (Val_int x) s) = Returned (Val_int x).
Proof.
  intros Hx Hret. rewrite publish_then_get_run, Hret. cbv zeta. cbn [result].
  rewrite read_field_getter_of, get_set_field, field_eqb_refl.
  rewrite RING_IDX_Int_val_Val_int by exact Hx. reflexivity.
Qed.

Lemma publish_then_read_back_witness :
  result (publish_then_get Push_requests Get_req_prod sample_handle (Val_int 7) sample_ring)
  = Returned (Val_int 7).
Proof.
  apply (publish_then_read_back Push_requests sample_handle 7 sample_ring).
  - lia.
  - reflexivity.
Defined.

(** X3. A publish does not change what the getters of the other three
    members return: read after the publish, such a getter gives the result
    it would have given before it. *)
Theorem publish_keeps_other_reads
  (op : publish_op) (g : getter_op) (h : ring_handle) (v : value) (s : sring) :
  read_field g <> written_field op ->
  is_returned (result (run_publish op h v s)) = true ->
  result (publish_then_get op g h v s) = result (run_getter g h s).
Proof.
  intros Hne Hret. rewrite publish_then_get_run, Hret, getter_run.
  cbv zeta. cbn [result]. rewrite get_set_field.
  destruct (field_eqb (read_field g) (written_field op)) eqn:E.
  - apply field_eqb_eq in E. contradiction.
  - reflexivity.
Qed.

Lemma publish_keeps_other_reads_witness :
  result (publish_then_get Push_requests Get_req_event sample_handle (Val_int 7) sample_ring)
  = result (run_getter Get_req_event sample_handle sample_ring).
Proof.
  apply (publish_keeps_other_reads Push_requests Get_req_event sample_handle
           (Val_int 7) sample_ring).
  - discriminate.
  - reflexivity.
Defined.

(** X4. On a control block whose members are in range, what a getter
    returns is the tagged immediate integer [2x+1] of the stored index
    [x]: an odd word that OCaml reads as the non-negative integer [x],
    below 2^32, never as a negative one. *)
Theorem getter_returns_tagged_index (g : getter_op) (h : ring_handle) (s : sring) :
  sring_wf s ->
  let x := get_field (read_field g) s in
  result (run_getter g h s) = Returned (2 * x + 1)
  /\ Long_val (2 * x + 1) = x
  /\ Z.odd (2 * x + 1) = true
  /\ 0 <= x < 2 ^ 32.
Proof.
  intros Hwf. cbv zeta.
  assert (Hx : 0 <= get_field (read_field g) s < 2 ^ 32).
  { unfold sring_wf in Hwf. destruct g; cbn [read_field get_field]; lia. }
  rewrite getter_run. cbn [result]. unfold Val_int.
  rewrite Val_long_tag by lia. rewrite Long_val_tag.
  repeat split; try lia.
  rewrite Z.add_comm, Z.odd_add_mul_2. reflexivity.
Qed.

Lemma getter_returns_tagged_index_witness :
  result (run_getter Get_rsp_prod sample_handle sample_ring) = Returned (2 * 37 + 1).
Proof.
  apply (getter_returns_tagged_index Get_rsp_prod sample_handle sample_ring).
  unfold sring_wf. cbn. repeat split; lia.
Defined.

(** X5. Every stub keeps the control block well formed: after a publish
    of any word whatever, and after any getter, the four members are
    again in the 32-bit range and the pad has its 64 bytes. *)
Theorem stubs_keep_sring_wf
  (op : publish_op) (g : getter_op) (h : ring_handle) (v : value) (s : sring) :
  sring_wf s ->
  sring_wf (shared (run_publish op h v s)) /\ sring_wf (shared (run_getter g h s)).
Proof.
  intros Hwf. split.
  - rewrite publish_run.
    destruct (is_returned (result (run_publish op h v s))); cbn [shared];
      [| exact Hwf].
    pose proof (Z.mod_pos_bound (Int_val v) (2 ^ 32) ltac:(lia)) as Hb.
    unfold sring_wf in *.
    destruct op; cbn [written_field set_field req_prod req_event rsp_prod rsp_event pad];
      unfold RING_IDX, RING_IDX_bits, wrap; lia.
  - rewrite getter_run. cbn [shared]. exact Hwf.
Qed.

Lemma stubs_keep_sring_wf_witness :
  sring_wf (shared (run_publish Set_rsp_event sample_handle (-12345) sample_ring))
  /\ sring_wf (shared (run_getter Get_req_prod sample_handle sample_ring)).
Proof.
  apply (stubs_keep_sring_wf Set_rsp_event Get_req_prod sample_handle (-12345) sample_ring).
  unfold sring_wf. cbn. repeat split; lia.
Defined.

(** ** Publishes in sequence *)

Lemma set_field_same (f : field) (s : sring) :
  0 <= get_field f s < 2 ^ 32 -> set_field f (get_field f s) s = s.
Proof.
  intros H. destruct s as [a b c d p].
  destruct f; cbn [set_field get_field req_prod req_event rsp_prod rsp_event pad] in *;
    unfold RING_IDX; rewrite wrap_small by exact H; reflexivity.
Qed.

Lemma set_field_RING_IDX (f : field) (x : Z) (s : sring) :
  set_field f (RING_IDX x) s = set_field f x s.
Proof.
  assert (E : RING_IDX (RING_IDX x) = RING_IDX x).
  { unfold RING_IDX, RING_IDX_bits, wrap. apply Z.mod_mod. lia. }
  destruct f; cbn [set_field]; rewrite E; reflexivity.
Qed.

Lemma set_field_twice (f : field) (x y : Z) (s : sring) :
  set_field f y (set_field f x s) = set_field f y s.
Proof. destruct f; reflexivity. Qed.

(** X6. Round trip the other way.  On a well-formed control block,
    reading a member with its getter and handing the result straight back
    to the publish operation of the same member leaves the control block
    exactly as it was. *)
Theorem read_then_publish_restores
  (op : publish_op) (h : ring_handle) (s : sring) :
  sring_wf s ->
  shared (get_then_publish (getter_of op) op h s) = s.
Proof.
  intros Hwf. unfold get_then_publish, bind.
  rewrite getter_run. cbn [result shared trace].
  rewrite publish_run.
  destruct (is_returned _); cbn [shared]; [| reflexivity].
  rewrite read_field_getter_of.
  assert (Hx : 0 <= get_field (written_field op) s < 2 ^ 32).
  { unfold sring_wf in Hwf. destruct op; cbn [written_field get_field]; lia. }
  rewrite <- set_field_RING_IDX.
  rewrite RING_IDX_Int_val_Val_int by exact Hx.
  apply set_field_same. exact Hx.
Qed.

Lemma read_then_publish_restores_witness :
  shared (get_then_publish Get_rsp_event Set_rsp_event sample_handle sample_ring)
  = sample_ring.
Proof.
  apply (read_then_publish_restores Set_rsp_event sample_handle sample_ring).
  unfold sring_wf. cbn. repeat split; lia.
Defined.

(** X7. A publish sets its member, it does not add to it: of two
    publishes by the same operation the second one alone decides the
    control block, which ends as if the first had not been made. *)
Theorem second_publish_wins
  (op : publish_op) (h : ring_handle) (v1 v2 : value) (s : sring) :
  shared (publish_twice op op h v1 v2 s) = shared (run_publish op h v2 s)
  /\ result (publish_twice op op h v1 v2 s) = result (run_publish op h v2 s).
Proof.
  unfold publish_twice, bind.
  destruct op; cbn [run_publish]; rewrite ?push_requests_run;
    try destruct (page_aligned h) eqn:Hal;
    cbn [result shared trace];
    rewrite ?push_requests_run, ?Hal; cbn [result shared trace];
    rewrite ?set_field_twice; split; reflexivity.
Qed.

(** X8. Publishes to different members commute: when both return, the
    control block and the result are the same in either order, so the
    operations of the two ends of the ring do not disturb each other. *)
Theorem publishes_commute
  (op1 op2 : publish_op) (h : ring_handle) (v1 v2 : value) (s : sring) :
  op1 <> op2 ->
  page_aligned h = true ->
  shared (publish_twice op1 op2 h v1 v2 s) = shared (publish_twice op2 op1 h v2 v1 s)
  /\ result (publish_twice op1 op2 h v1 v2 s) = Returned Val_unit
  /\ result (publish_twice op2 op1 h v2 v1 s) = Returned Val_unit.
Proof.
  intros Hne Hal. unfold publish_twice, bind.
  destruct op1, op2; try contradiction;
    cbn [run_publish]; rewrite ?push_requests_run, ?Hal;
    cbn [result shared trace];
    rewrite ?push_requests_run, ?Hal; cbn [result shared trace];
    repeat split; reflexivity.
Qed.

Lemma publishes_commute_witness :
  shared (publish_twice Push_requests Set_rsp_event sample_handle 15 9 sample_ring)
  = shared (publish_twice Set_rsp_event Push_requests sample_handle 9 15 sample_ring).
Proof.
  apply (publishes_commute Push_requests Set_rsp_event sample_handle 15 9 sample_ring).
  - discriminate.
  - reflexivity.
Defined.

(** ** Fences between the calls of a sequence *)

(** [fence_between]: whenever an event picked by [a] stands before an
    event picked by [b], a fence stands between the two. *)
Lemma fence_between_from_spec (a b : event -> bool) (tr : list event) :
  forall pending : bool,
    fence_between_from pending a b tr = true <->
    ((pending = true ->
      forall mid e2 post, tr = mid ++ e2 :: post -> b e2 = true -> In EvFence mid)
     /\ (forall pre e1 mid e2 post,
            tr = pre ++ e1 :: mid ++ e2 :: post ->
            a e1 = true -> b e2 = true -> In EvFence mid)).
Proof.
  induction tr as [| e tr' IH]; intros pending; simpl.
  - split; [| reflexivity]. intros _. split.
    + intros _ [| x mid] e2 post Heq; discriminate Heq.
    + intros [| x pre] e1 mid e2 post Heq; discriminate Heq.
  - rewrite andb_true_iff, IH. split.
    + intros [Hhd [Hp Hq]]. split.
      * intros -> [| x mid] e2 post Heq Hb; injection Heq as -> ->.
        -- rewrite Hb in Hhd. discriminate Hhd.
        -- destruct (a x) eqn:Ha.
           ++ right. apply (Hp eq_refl mid e2 post eq_refl Hb).
           ++ destruct (is_fence x) eqn:Hf.
              ** left. apply is_fence_true in Hf. exact Hf.
              ** right. apply (Hp eq_refl mid e2 post eq_refl Hb).
      * intros [| x pre] e1 mid e2 post Heq Ha Hb; injection Heq as -> ->.
        -- rewrite Ha in Hp. apply (Hp eq_refl mid e2 post eq_refl Hb).
        -- apply (Hq pre e1 mid e2 post eq_refl Ha Hb).
    + intros [Hp Hq]. split; [| split].
      * destruct (b e) eqn:Hb; [| reflexivity].
        destruct pending; [| reflexivity].
        destruct (Hp eq_refl [] e tr' eq_refl Hb).
      * intros Hpend mid e2 post -> Hb.
        destruct (a e) eqn:Ha.
        -- apply (Hq [] e mid e2 post eq_refl Ha Hb).
        -- destruct (is_fence e) eqn:Hf; [discriminate Hpend |].
           subst pending.
           destruct (Hp eq_refl (e :: mid) e2 post eq_refl Hb) as [He | Hin].
           ++ subst e. discriminate Hf.
           ++ exact Hin.
      * intros pre e1 mid e2 post -> Ha Hb.
        apply (Hq (e :: pre) e1 mid e2 post eq_refl Ha Hb).
Qed.

Lemma fence_between_spec (a b : event -> bool) (tr : list event) :
  fence_between a b tr = true <->
  (forall pre e1 mid e2 post,
      tr = pre ++ e1 :: mid ++ e2 :: post ->
      a e1 = true -> b e2 = true -> In EvFence mid).
Proof.
  unfold fence_between. rewrite fence_between_from_spec. split.
  - intros [_ H]. exact H.
  - intros H. split; [discriminate | exact H].
Qed.

(** X9. When a getter is called right after a publish, a fence separates
    the publish's store from the getter's load in every combination but
    one: after a push of a produced index, the getter of a produced index
    loads with no fence since the store.  So the threshold read that
    follows a push ([caml_sring_push_requests] then [caml_sring_req_event],
    [caml_sring_push_responses] then [caml_sring_rsp_event]) is fenced off
    from the push, and so is the re-read of a produced index that follows
    a threshold update. *)
Theorem fence_between_publish_and_read
  (op : publish_op) (g : getter_op) (h : ring_handle) (v : value) (s : sring) :
  fence_between (is_store (written_field op)) (is_load (read_field g))
    (trace (publish_then_get op g h v s))
  = negb (is_push op && reads_prod g
          && is_returned (result (run_publish op h v s))).
Proof.
  rewrite publish_then_get_run, publish_returns.
  destruct op; cbn [run_publish written_field is_push];
    rewrite ?push_requests_run; try destruct (page_aligned h);
    destruct g; reflexivity.
Qed.

(** The sequence a requester runs to publish requests and decide on a
    notification, on the sample ring: fence, store of [req_prod], fence,
    load of [req_event]. *)
Example push_requests_then_req_event_trace :
  trace (publish_then_get Push_requests Get_req_event sample_handle (Val_int 45) sample_ring)
  = [EvFence; EvStore F_req_prod 45; EvFence; EvLoad F_req_event 41].
Proof. reflexivity. Qed.

(** ** The header within its page *)

(** X10. When the ring pointer is page-aligned, as
    [caml_sring_push_requests] asserts, the whole 80-byte header lies in
    the page the pointer names, and all four indices, those written by
    the requester and those written by the responder, lie in one and the
    same 64-byte cache line, the first of the page. *)
Theorem aligned_header_in_one_line
  (h : ring_handle) (f : field) (i k : Z) :
  page_aligned h = true ->
  0 <= i < sizeof_RING_IDX ->
  0 <= k < Layout.sizeof_sring ->
  page_of (SRING_VAL h + k) = page_of (SRING_VAL h)
  /\ Layout.cache_line 64 (SRING_VAL h + Layout.offsetof f + i)
     = Layout.cache_line 64 (SRING_VAL h)
  /\ SRING_VAL h mod 64 = 0.
Proof.
  intros Hal Hi Hk.
  rewrite page_aligned_spec in Hal. apply Z.eqb_eq in Hal. unfold PAGE_SIZE in Hal.
  assert (Hs : Layout.sizeof_sring = 80) by reflexivity.
  assert (Hw : sizeof_RING_IDX = 4) by reflexivity.
  assert (Hf : 0 <= Layout.offsetof f <= 12)
    by (destruct f; vm_compute; split; discriminate).
  pose proof (Z.div_mod (SRING_VAL h) 4096 ltac:(lia)) as Hd.
  set (q := SRING_VAL h / 4096) in *.
  unfold page_of, Layout.cache_line, PAGE_SIZE.
  assert (Hb : SRING_VAL h = 4096 * q) by lia.
  rewrite Hb. repeat split.
  - rewrite (Z.mul_comm 4096 q), Z.div_add_l, Z.div_mul by lia.
    rewrite (Z.div_small k 4096) by lia. lia.
  - replace (4096 * q + Layout.offsetof f + i)
      with (64 * q * 64 + (Layout.offsetof f + i)) by lia.
    replace (4096 * q) with (64 * q * 64) by lia.
    rewrite Z.div_add_l, Z.div_mul by lia.
    rewrite (Z.div_small (Layout.offsetof f + i) 64) by lia. lia.
  - replace (4096 * q) with (64 * q * 64) by lia. apply Z.mod_mul. lia.
Qed.

Lemma aligned_header_in_one_line_witness :
  page_of (SRING_VAL sample_handle + 79) = page_of (SRING_VAL sample_handle)
  /\ Layout.cache_line 64 (SRING_VAL sample_handle + Layout.offsetof F_rsp_event + 3)
     = Layout.cache_line 64 (SRING_VAL sample_handle)
  /\ SRING_VAL sample_handle mod 64 = 0.
Proof.
  apply (aligned_header_in_one_line sample_handle F_rsp_event 3 79).
  - reflexivity.
  - vm_compute. split; [discriminate | reflexivity].
  - vm_compute. split; [discriminate | reflexivity].
Defined.
